(** * context-container: plugin registry, capability token, singletons,
      memoization and timestamp of a per-job context container.

    The development embeds the TypeScript sources
      - src/private/PluginCollection.ts
      - src/private/ContextContainerFactoryImpl.ts
      - src/public/ContextContainer.ts (PluginSpec, ContextualSingleton)
    as Rocq functions over an explicit model of the JavaScript store, models
    the class of src/private/ContextContainerImpl.ts after the design
    document, and proves the properties of that document about them. *)

From Stdlib Require Import Floats ZArith.
From stdpp Require Import gmap strings list relations.

Set Default Proof Using "Type".

(** ** JavaScript values, errors and completions *)

(** Object identities (the address of an object).  Two references are [===]
    exactly when they are the same address. *)
Abbreviation loc := nat (only parsing).

(** The runtime values a slot typed [unknown] can hold.  [VNumber] carries the
    integer-valued numbers, which is all the repository's tests use;
    [VObject] is a reference to an object (a plugin implementation, a class,
    a promise, ...); [VError] is an object made by [new Error(message)],
    identified with its message. *)
Inductive Value : Type :=
  | VUndefined
  | VNull
  | VBoolean (b : bool)
  | VNumber (n : Z)
  | VString (s : string)
  | VObject (l : loc)
  | VError (message : string).

#[global] Instance Value_eq_dec : EqDecision Value.
Proof. solve_decision. Defined.

#[global] Instance Value_countable : Countable Value.
Proof.
  refine (inj_countable'
    (λ v, match v with
          | VUndefined => inl (inl false)
          | VNull => inl (inl true)
          | VBoolean b => inl (inr b)
          | VNumber n => inr (inl n)
          | VString s => inr (inr (inl s))
          | VObject l => inr (inr (inr (inl l)))
          | VError msg => inr (inr (inr (inr msg)))
          end)
    (λ x, match x with
          | inl (inl false) => VUndefined
          | inl (inl true) => VNull
          | inl (inr b) => VBoolean b
          | inr (inl n) => VNumber n
          | inr (inr (inl s)) => VString s
          | inr (inr (inr (inl l))) => VObject l
          | inr (inr (inr (inr msg))) => VError msg
          end) _).
  by intros [].
Defined.

(** [v == null]: loose equality with [null] holds for [null] and [undefined]
    only. *)
Definition is_nullish (v : Value) : bool :=
  match v with
  | VUndefined | VNull => true
  | _ => false
  end.

(** How the evaluation of a call ends: it returns a value, or it throws one
    ([throw] accepts any value; the repository throws [Error] objects). *)
Inductive Completion (A : Type) : Type :=
  | Normal (a : A)
  | Thrown (e : Value).
Arguments Normal {A} a.
Arguments Thrown {A} e.

(** [Map.prototype.get]: the stored value, [undefined] for an absent key. *)
Definition Map_get `{Countable K} (m : gmap K Value) (k : K) : Value :=
  default VUndefined (m !! k).

(** A [Date] is identified with the instant it denotes (milliseconds since the
    epoch); nothing in the repository mutates one. *)
Abbreviation Date := Z (only parsing).

(** ** src/public/ContextContainer.ts: plugin references and specs *)

(** A [PluginReference] is an object used only for its identity. *)
Abbreviation PluginReference := loc (only parsing).

(** [PluginSpec<unknown>]: [{ reference, implementation }]. *)
Record PluginSpec : Type := mkPluginSpec {
  reference : PluginReference;
  implementation : Value;
}.

(** ** src/private/PluginCollection.ts *)

Module PluginCollection.

(** [private plugins: Map<PluginReference<unknown>, unknown>]. *)
Record t : Type := mk { plugins : gmap PluginReference Value }.

(** The constructor: starting from [new Map()], every spec of the array, in
    order, is written with [this.plugins.set(reference, implementation)]. *)
Definition new (specs : list PluginSpec) : t :=
  mk (fold_left (λ m plugin, <[reference plugin := implementation plugin]> m)
        specs ∅).

(** [get(ref)]: [Map.get], then the [plugin == null] guard. *)
Definition get (this : t) (ref : PluginReference) : Completion Value :=
  let plugin := Map_get (plugins this) ref in
  if is_nullish plugin
  then Thrown (VError "Plugin not set")
  else Normal plugin.

End PluginCollection.

(** ** src/private/ContextContainerFactoryImpl.ts: the capability token *)

(** An instance of [ProofOfBeingCalledByContextContainer]: its private
    [token] member. *)
Record ProofOfBeingCalledByContextContainer : Type := mkProof {
  token : float;
}.

Section CapabilityToken.

(** [const TOKEN = Math.random();], drawn once when the module is loaded. *)
Variable TOKEN : float.

(** [assertConstructedByContextContainer(token)].  The test [token !== TOKEN]
    on two numbers is the negation of IEEE 754 equality. *)
Definition assertConstructedByContextContainer (tok : float)
  : Completion unit :=
  if negb (PrimFloat.eqb tok TOKEN)
  then Thrown (VError "Attempted to construct ContextModuleClass directly")
  else Normal tt.

(** [new ProofOfBeingCalledByContextContainer(token)]: the parameter property
    is stored, then the assertion runs on [this.token]. *)
Definition new_ProofOfBeingCalledByContextContainer (tok : float)
  : Completion ProofOfBeingCalledByContextContainer :=
  let this := mkProof tok in
  match assertConstructedByContextContainer (token this) with
  | Thrown e => Thrown e
  | Normal _ => Normal this
  end.

End CapabilityToken.

(** ** The store shared by a process *)

(** The state of a promise object. *)
Inductive PromiseState : Type :=
  | Pending
  | Fulfilled (v : Value)
  | Rejected (reason : Value).

(** The part of the store that application code can read and write: the
    allocator of object identities ([next_loc] is the first address not yet
    in use), the wall clock read by [new Date()], the class of each
    singleton instance allocated so far, and the promises. *)
Record Heap : Type := mkHeap {
  next_loc : loc;
  now : Date;
  instances : gmap loc loc;
  promises : gmap loc PromiseState;
}.

(** ** src/public/ContextContainer.ts: ContextualSingleton *)

(** A singleton class is identified by its constructor object. *)
Abbreviation SingletonClass := loc (only parsing).

(** [new singletonClass(proof)] for a class that inherits the constructor of
    [ContextualSingleton], whose body is the expression statement [proof;]:
    a fresh object of that class is allocated and nothing is checked. *)
Definition new_ContextualSingleton (singletonClass : SingletonClass)
    (proof : ProofOfBeingCalledByContextContainer) (h : Heap) : loc * Heap :=
  let this := next_loc h in
  (this, mkHeap (S this) (now h) (<[this := singletonClass]> (instances h))
           (promises h)).

(** Constructing a singleton class directly, outside [getSingleton]:
    [new singletonClass(new ProofOfBeingCalledByContextContainer(tok))].
    The argument is evaluated first. *)
Definition construct_directly (TOKEN : float) (singletonClass : SingletonClass)
    (tok : float) (h : Heap) : Completion loc * Heap :=
  match new_ProofOfBeingCalledByContextContainer TOKEN tok with
  | Thrown e => (Thrown e, h)
  | Normal proof =>
      let '(this, h') := new_ContextualSingleton singletonClass proof h in
      (Normal this, h')
  end.

(** ** src/private/ContextContainerImpl.ts *)

Module ContextContainerImpl.

(** Modelled from the spec: the class [ContextContainerImpl]
    (src/private/ContextContainerImpl.ts) is not among the sources; only its
    constructor call in [ContextContainerFactoryImpl.create] and the
    interface [ContextContainer] it implements are.  By sections 3 and 4.5 a
    container owns one Plugin Registry and one immutable timestamp (the
    constructor's arguments, together with the proof object that
    [getSingleton] presents), one Singleton Registry mapping a class identity
    to its instance, and one Memoization Cache keyed by
    [(scopeIdentity, key)]; both registries are created empty. *)
Record t : Type := mk {
  proof : ProofOfBeingCalledByContextContainer;
  plugins : PluginCollection.t;
  timestamp : Date;
  singletons : gmap SingletonClass loc;
  memoized : gmap (Value * string) Value;
}.

(** Modelled from the spec: the constructor
    [new ContextContainerImpl(proof, plugins, timestamp)] keeps its three
    arguments and "creates empty Singleton and Memoization registries". *)
Definition new (proof : ProofOfBeingCalledByContextContainer)
    (plugins : PluginCollection.t) (timestamp : Date) : t :=
  mk proof plugins timestamp ∅ ∅.

End ContextContainerImpl.

(** The whole store: the application heap, the container objects by address,
    and a record of the callbacks invoked so far (most recent first). *)
Record World : Type := mkWorld {
  heap : Heap;
  containers : gmap loc ContextContainerImpl.t;
  invocations : list loc;
}.

(** A function [fn: () => T] handed to [memoize].  Its body is arbitrary
    application code: it may read the whole store (a closure can call
    [cc.getPlugin] or read [cc.timestamp]), it may change the heap, and it
    returns or throws.  The registries of a container are private, so the
    body does not write them; calls from within [fn] to the methods that do
    ([getSingleton], [memoize]) are outside this model.  [fn_id] is the
    identity of the function object; it is used only to record which
    functions were invoked. *)
Record Callback : Type := mkCallback {
  fn_id : loc;
  fn_run : World → Completion Value * Heap;
}.

(** Application code allocates but never releases an address in use. *)
Definition allocates_only (fn : Callback) : Prop :=
  ∀ w, next_loc (heap w) ≤ next_loc (fn_run fn w).2.

(** Allocation of a container object. *)
Definition alloc_container (c : ContextContainerImpl.t) (w : World)
  : loc * World :=
  let h := heap w in
  let cc := next_loc h in
  (cc, mkWorld (mkHeap (S cc) (now h) (instances h) (promises h))
               (<[cc := c]> (containers w)) (invocations w)).

(** *** The methods of a container

    A method is called on a reference [cc]; the result is [None] when [cc] is
    not the address of a container (a receiver the type checker rejects). *)

(** Modelled from the spec: [getPlugin(ref)] of the absent class; the
    container "delegates each to the corresponding registry", here
    [PluginCollection.get]. *)
Definition getPlugin (cc : loc) (ref : PluginReference) (w : World)
  : option (Completion Value) :=
  c ← containers w !! cc;
  Some (PluginCollection.get (ContextContainerImpl.plugins c) ref).

(** Modelled from the spec: the read-only [timestamp] accessor of the absent
    class. *)
Definition timestamp (cc : loc) (w : World) : option Date :=
  ContextContainerImpl.timestamp <$> containers w !! cc.

(** Modelled from the spec: [getSingleton(singletonClass)] of the absent
    class, section 4.3: "look up by class identity in the registry; if
    absent, construct a new instance by invoking the class's initializer
    with the Capability Token, store it keyed by class identity, and return
    it; if present, return the stored instance unchanged". *)
Definition getSingleton (cc : loc) (singletonClass : SingletonClass)
    (w : World) : option (loc * World) :=
  c ← containers w !! cc;
  match ContextContainerImpl.singletons c !! singletonClass with
  | Some instance => Some (instance, w)
  | None =>
      let '(instance, h') :=
        new_ContextualSingleton singletonClass (ContextContainerImpl.proof c)
          (heap w) in
      let c' :=
        ContextContainerImpl.mk
          (ContextContainerImpl.proof c) (ContextContainerImpl.plugins c)
          (ContextContainerImpl.timestamp c)
          (<[singletonClass := instance]> (ContextContainerImpl.singletons c))
          (ContextContainerImpl.memoized c) in
      Some (instance, mkWorld h' (<[cc := c']> (containers w)) (invocations w))
  end.

(** Modelled from the spec: [memoize(scope, key, fn)] of the absent class,
    section 4.4: it "returns the previously cached value for [(scope, key)]
    if one exists; otherwise it invokes [fn()] exactly once, stores the
    returned value under [(scope, key)], and returns it"; "if [fn] fails
    synchronously (throws) before producing a value, no entry is stored, and
    the failure propagates to the caller".  The call of [fn] is recorded in
    [invocations]. *)
Definition memoize (cc : loc) (scope : Value) (key : string) (fn : Callback)
    (w : World) : option (Completion Value * World) :=
  c ← containers w !! cc;
  match ContextContainerImpl.memoized c !! (scope, key) with
  | Some cached => Some (Normal cached, w)
  | None =>
      let '(result, h') := fn_run fn w in
      let called := fn_id fn :: invocations w in
      match result with
      | Thrown e => Some (Thrown e, mkWorld h' (containers w) called)
      | Normal value =>
          let c' :=
            ContextContainerImpl.mk
              (ContextContainerImpl.proof c) (ContextContainerImpl.plugins c)
              (ContextContainerImpl.timestamp c)
              (ContextContainerImpl.singletons c)
              (<[(scope, key) := value]> (ContextContainerImpl.memoized c)) in
          Some (Normal value, mkWorld h' (<[cc := c']> (containers w)) called)
      end
  end.

(** ** src/private/ContextContainerFactoryImpl.ts: the factory *)

Module ContextContainerFactoryImpl.

(** [create(plugins, timestamp?)].  The three arguments of the constructor
    are evaluated from left to right: the proof object (whose constructor
    may throw), the plugin collection, and [timestamp ?? new Date()], where
    an omitted [timestamp] is [None] and [new Date()] reads the clock. *)
Definition create (TOKEN : float) (plugins : list PluginSpec)
    (timestamp : option Date) (w : World) : Completion loc * World :=
  match new_ProofOfBeingCalledByContextContainer TOKEN TOKEN with
  | Thrown e => (Thrown e, w)
  | Normal proof =>
      let collection := PluginCollection.new plugins in
      let timestamp := default (now (heap w)) timestamp in
      let '(cc, w') :=
        alloc_container (ContextContainerImpl.new proof collection timestamp) w
      in (Normal cc, w')
  end.

End ContextContainerFactoryImpl.

(** ** The life of a process

    One step of a process is a call of the factory, a call of a method that
    changes a container, or any amount of application code (a clock tick, the
    settlement of a promise, an allocation).  [getPlugin] and [timestamp]
    leave the store as it is and need no step of their own. *)
Inductive step (TOKEN : float) : World → World → Prop :=
  | step_create plugins ts w r w' :
      ContextContainerFactoryImpl.create TOKEN plugins ts w = (r, w') →
      step TOKEN w w'
  | step_getSingleton cc singletonClass w instance w' :
      getSingleton cc singletonClass w = Some (instance, w') →
      step TOKEN w w'
  | step_memoize cc scope key fn w r w' :
      allocates_only fn →
      memoize cc scope key fn w = Some (r, w') →
      step TOKEN w w'
  | step_application w h' :
      next_loc (heap w) ≤ next_loc h' →
      step TOKEN w (mkWorld h' (containers w) (invocations w)).

Definition steps (TOKEN : float) : World → World → Prop := rtc (step TOKEN).

(** The store of a process is well formed when every address it holds has
    been allocated and no singleton instance is held by two registry
    entries. *)
Record well_formed (w : World) : Prop := mk_well_formed {
  wf_containers : ∀ cc c,
    containers w !! cc = Some c → cc < next_loc (heap w);
  wf_instances : ∀ cc c cls i,
    containers w !! cc = Some c →
    ContextContainerImpl.singletons c !! cls = Some i →
    i < next_loc (heap w);
  wf_isolated : ∀ cc1 c1 cls1 cc2 c2 cls2 i,
    containers w !! cc1 = Some c1 →
    ContextContainerImpl.singletons c1 !! cls1 = Some i →
    containers w !! cc2 = Some c2 →
    ContextContainerImpl.singletons c2 !! cls2 = Some i →
    cc1 = cc2 ∧ cls1 = cls2;
}.

(** What a container may become: its constructor arguments stay, its two
    registries only gain entries. *)
Record evolves (c c' : ContextContainerImpl.t) : Prop := mk_evolves {
  ev_proof : ContextContainerImpl.proof c' = ContextContainerImpl.proof c;
  ev_plugins : ContextContainerImpl.plugins c' = ContextContainerImpl.plugins c;
  ev_timestamp :
    ContextContainerImpl.timestamp c' = ContextContainerImpl.timestamp c;
  ev_singletons :
    ContextContainerImpl.singletons c ⊆ ContextContainerImpl.singletons c';
  ev_memoized :
    ContextContainerImpl.memoized c ⊆ ContextContainerImpl.memoized c';
}.

(** A store in which no container has been created yet. *)
Definition empty_world (h : Heap) : World := mkWorld h ∅ [].

(** What awaiting a value observes in a store: the state of the promise the
    value refers to. *)
Definition settlement (w : World) (v : Value) : option PromiseState :=
  match v with
  | VObject p => promises (heap w) !! p
  | _ => None
  end.

(** The loop of the constructor of [PluginCollection], from any starting
    map: [PluginCollection.new] runs it from the empty one. *)
Definition set_all (specs : list PluginSpec) (m : gmap PluginReference Value)
  : gmap PluginReference Value :=
  fold_left (λ m plugin, <[reference plugin := implementation plugin]> m)
    specs m.

(** ** Sample inputs, after the repository's tests *)

(** A store before any allocation, at clock reading 1609459200000
    (2021-01-01, the date of the singleton tests). *)
Definition fresh_heap : Heap := mkHeap 0 1609459200000 ∅ ∅.

(** [() => arg] of the memoization tests: returns [arg] and touches
    nothing. *)
Definition returning (id : loc) (arg : Value) : Callback :=
  mkCallback id (λ w, (Normal arg, heap w)).

(** [() => { throw e; }]. *)
Definition throwing (id : loc) (e : Value) : Callback :=
  mkCallback id (λ w, (Thrown e, heap w)).

(** An [async] function whose body suspends at its first [await]: the call
    returns a new promise that is still pending. *)
Definition suspending (id : loc) : Callback :=
  mkCallback id (λ w,
    let h := heap w in
    let p := next_loc h in
    (Normal (VObject p),
     mkHeap (S p) (now h) (instances h) (<[p := Pending]> (promises h)))).

(** The stores of the tests: after [create([])], and after a second
    [create([])], with the process token one half. *)
Definition one_container : World :=
  (ContextContainerFactoryImpl.create 0.5 [] None (empty_world fresh_heap)).2.

Definition two_containers : World :=
  (ContextContainerFactoryImpl.create 0.5 [] None one_container).2.

(** ** src/public/ContextContainer.ts: createPluginReference *)

(** [createPluginReference<T>()] returns the object literal
    [{ typeSpec(_pluginType) { ... } }], a new object at every call.  (Its
    one method only throws and is not modelled.) *)
Definition createPluginReference (h : Heap) : PluginReference * Heap :=
  let ref := next_loc h in
  (ref, mkHeap (S ref) (now h) (instances h) (promises h)).

(** ** src/private/__tests__/TestSingleton.test.ts: RequestStartTime *)

Module RequestStartTime.

(** The fields of an instance of [class RequestStartTime extends
    ContextualSingleton]: [private timestamp_: Date | undefined], where
    [None] is [undefined]. *)
Record t : Type := mk { timestamp_ : option Date }.

(** The instance as its constructor leaves it: the field has no
    initializer. *)
Definition fresh : t := mk None.

(** [get timestamp()]: throws when [this.timestamp_ == null]. *)
Definition timestamp (this : t) : Completion Date :=
  match timestamp_ this with
  | None => Thrown (VError "Expected timestamp to be set")
  | Some set => Normal set
  end.

(** [setRequestTime(timestamp)]: throws when [this.timestamp_ != null],
    otherwise assigns the field. *)
Definition setRequestTime (timestamp : Date) (this : t)
  : Completion unit * t :=
  match timestamp_ this with
  | Some _ => (Thrown (VError "Attempted to set request time twice"), this)
  | None => (Normal tt, mk (Some timestamp))
  end.

(** Successive calls of [setRequestTime] on one instance, with the
    completion of each call. *)
Fixpoint setRequestTimes (timestamps : list Date) (this : t)
  : list (Completion unit) * t :=
  match timestamps with
  | [] => ([], this)
  | timestamp :: rest =>
      let '(result, this') := setRequestTime timestamp this in
      let '(results, final) := setRequestTimes rest this' in
      (result :: results, final)
  end.

End RequestStartTime.

(** * Properties *)

(** ** The plugin registry *)

Section PluginRegistry.

Implicit Types (specs : list PluginSpec) (m : gmap PluginReference Value).

Lemma set_all_absent specs m ref :
  ref ∉ reference <$> specs → set_all specs m !! ref = m !! ref.
Proof.
  revert m. induction specs as [|p specs IH]; intros m Hnot; [done|].
  rewrite fmap_cons, not_elem_of_cons in Hnot. destruct Hnot as [Hne Hnot].
  cbn. change (set_all specs (<[reference p:=implementation p]> m) !! ref
               = m !! ref).
  rewrite IH by done. by rewrite lookup_insert_ne.
Qed.

Lemma set_all_last earlier p later m :
  reference p ∉ reference <$> later →
  set_all (earlier ++ p :: later) m !! reference p = Some (implementation p).
Proof.
  intros Hnot. unfold set_all. rewrite fold_left_app. cbn.
  fold (set_all later
          (<[reference p:=implementation p]>
             (fold_left (λ m plugin,
                <[reference plugin:=implementation plugin]> m) earlier m))).
  rewrite set_all_absent by done. apply lookup_insert_eq.
Qed.

Lemma new_absent specs ref :
  ref ∉ reference <$> specs →
  PluginCollection.plugins (PluginCollection.new specs) !! ref = None.
Proof. intros Hnot. cbn. fold (set_all specs ∅). by rewrite set_all_absent. Qed.

Lemma new_last earlier p later :
  reference p ∉ reference <$> later →
  PluginCollection.plugins (PluginCollection.new (earlier ++ p :: later))
    !! reference p = Some (implementation p).
Proof. intros Hnot. cbn. by apply (set_all_last earlier p later ∅). Qed.

Lemma get_registered (this : PluginCollection.t) ref v :
  PluginCollection.plugins this !! ref = Some v →
  PluginCollection.get this ref =
    if is_nullish v then Thrown (VError "Plugin not set") else Normal v.
Proof. intros Hv. unfold PluginCollection.get, Map_get. by rewrite Hv. Qed.

Lemma get_unregistered (this : PluginCollection.t) ref :
  PluginCollection.plugins this !! ref = None →
  PluginCollection.get this ref = Thrown (VError "Plugin not set").
Proof. intros Hv. unfold PluginCollection.get, Map_get. by rewrite Hv. Qed.

End PluginRegistry.

(** ** The factory and the life of a container *)

(** A number that is at least zero, as every result of [Math.random()] is,
    is not NaN: it is strictly equal to itself. *)
Lemma nonnegative_is_a_number (x : float) :
  PrimFloat.leb 0 x = true → PrimFloat.eqb x x = true.
Proof.
  rewrite FloatAxioms.leb_spec, FloatAxioms.eqb_spec.
  destruct (Prim2SF x) as [s|s| |s m e]; cbn; try done.
  - intros _. unfold SFeqb, SFcompare. by destruct s.
  - intros _. unfold SFeqb, SFcompare.
    destruct s; by rewrite Z.compare_refl, Pos.compare_refl.
Qed.

Section Process.

Variable TOKEN : float.

(** [Math.random()] returns a number of the interval from 0 to 1, never NaN,
    so the token is strictly equal to itself ([nonnegative_is_a_number]). *)
Hypothesis TOKEN_is_a_number : PrimFloat.eqb TOKEN TOKEN = true.

Lemma new_proof_with_TOKEN :
  new_ProofOfBeingCalledByContextContainer TOKEN TOKEN = Normal (mkProof TOKEN).
Proof using TOKEN_is_a_number.
  unfold new_ProofOfBeingCalledByContextContainer,
    assertConstructedByContextContainer.
  cbn. by rewrite TOKEN_is_a_number.
Qed.

(** The factory returns a container at a fresh address, built from its
    arguments, and touches nothing else. *)
Lemma create_returns plugins ts w :
  ContextContainerFactoryImpl.create TOKEN plugins ts w =
    (Normal (next_loc (heap w)),
     mkWorld
       (mkHeap (S (next_loc (heap w))) (now (heap w)) (instances (heap w))
          (promises (heap w)))
       (<[next_loc (heap w) :=
            ContextContainerImpl.new (mkProof TOKEN)
              (PluginCollection.new plugins) (default (now (heap w)) ts)]>
          (containers w))
       (invocations w)).
Proof using TOKEN_is_a_number.
  unfold ContextContainerFactoryImpl.create.
  by rewrite new_proof_with_TOKEN.
Qed.

End Process.

Lemma evolves_refl c : evolves c c.
Proof. by split. Qed.

Lemma evolves_trans c1 c2 c3 : evolves c1 c2 → evolves c2 c3 → evolves c1 c3.
Proof.
  intros [] []. split; try congruence; by etrans.
Qed.

Lemma well_formed_empty h : well_formed (empty_world h).
Proof. split; cbn; intros *; by rewrite lookup_empty. Qed.

(** The factory, whatever its token: either it throws and leaves the store
    alone or it adds one container at the fresh address. *)
Lemma create_cases TOKEN plugins ts w r w' :
  ContextContainerFactoryImpl.create TOKEN plugins ts w = (r, w') →
  w' = w ∨
  ∃ c, ContextContainerImpl.singletons c = ∅ ∧
       heap w' = mkHeap (S (next_loc (heap w))) (now (heap w))
                   (instances (heap w)) (promises (heap w)) ∧
       containers w' = <[next_loc (heap w) := c]> (containers w).
Proof.
  unfold ContextContainerFactoryImpl.create.
  destruct (new_ProofOfBeingCalledByContextContainer TOKEN TOKEN) as [pf|e];
    cbn; intros [= <- <-]; [right|by left].
  by eexists (ContextContainerImpl.new _ _ _).
Qed.

Lemma getSingleton_cases cc cls w i w' :
  getSingleton cc cls w = Some (i, w') →
  ∃ c, containers w !! cc = Some c ∧
    (ContextContainerImpl.singletons c !! cls = Some i ∧ w' = w ∨
     ContextContainerImpl.singletons c !! cls = None ∧
     i = next_loc (heap w) ∧
     w' = mkWorld
            (mkHeap (S i) (now (heap w)) (<[i := cls]> (instances (heap w)))
               (promises (heap w)))
            (<[cc := ContextContainerImpl.mk
                  (ContextContainerImpl.proof c)
                  (ContextContainerImpl.plugins c)
                  (ContextContainerImpl.timestamp c)
                  (<[cls := i]> (ContextContainerImpl.singletons c))
                  (ContextContainerImpl.memoized c)]> (containers w))
            (invocations w)).
Proof.
  unfold getSingleton. destruct (containers w !! cc) as [c|] eqn:Hc; [|done].
  cbn. destruct (ContextContainerImpl.singletons c !! cls) as [j|] eqn:Hj.
  - intros [= <- <-]. exists c. split; [done|]. by left.
  - intros [= <- <-]. exists c. split; [done|]. by right.
Qed.

Lemma memoize_cases cc scope key fn w r w' :
  memoize cc scope key fn w = Some (r, w') →
  ∃ c, containers w !! cc = Some c ∧
    ((∃ v, ContextContainerImpl.memoized c !! (scope, key) = Some v ∧
           r = Normal v ∧ w' = w) ∨
     (ContextContainerImpl.memoized c !! (scope, key) = None ∧
      ∃ h', fn_run fn w = (r, h') ∧
        match r with
        | Thrown _ =>
            w' = mkWorld h' (containers w) (fn_id fn :: invocations w)
        | Normal v =>
            w' = mkWorld h'
                   (<[cc := ContextContainerImpl.mk
                        (ContextContainerImpl.proof c)
                        (ContextContainerImpl.plugins c)
                        (ContextContainerImpl.timestamp c)
                        (ContextContainerImpl.singletons c)
                        (<[(scope, key) := v]>
                           (ContextContainerImpl.memoized c))]> (containers w))
                   (fn_id fn :: invocations w)
        end)).
Proof.
  unfold memoize. destruct (containers w !! cc) as [c|] eqn:Hc; [|done].
  cbn. destruct (ContextContainerImpl.memoized c !! (scope, key)) as [v|] eqn:Hv.
  - intros [= <- <-]. exists c. split; [done|]. left. by exists v.
  - destruct (fn_run fn w) as [res h'] eqn:Hrun.
    destruct res as [v|e]; intros [= <- <-]; exists c; (split; [done|]);
      right; (split; [done|]); by exists h'.
Qed.

(** Every step keeps the store well formed. *)
Lemma step_well_formed TOKEN w w' :
  well_formed w → step TOKEN w w' → well_formed w'.
Proof.
  intros [Hcs Hins Hiso] Hstep.
  destruct Hstep as [plugins ts w r w' Hcreate
                    |cc cls w i w' Hget
                    |cc scope key fn w r w' Hfn Hmemo
                    |w h' Hle].
  - apply create_cases in Hcreate as [->|(c & Hempty & Hheap & Hconts)];
      [by split|].
    split; rewrite ?Hheap, ?Hconts; cbn.
    + intros cc c0 [[<- _]|[_ Hc0]]%lookup_insert_Some; [lia|].
      apply Hcs in Hc0. lia.
    + intros cc c0 cls i [[<- <-]|[_ Hc0]]%lookup_insert_Some Hi.
      * by rewrite Hempty, lookup_empty in Hi.
      * specialize (Hins _ _ _ _ Hc0 Hi). lia.
    + intros cc1 c1 cls1 cc2 c2 cls2 i
        [[<- <-]|[_ Hc1]]%lookup_insert_Some Hi1
        [[<- <-]|[_ Hc2]]%lookup_insert_Some Hi2;
        try (by rewrite Hempty, lookup_empty in Hi1);
        try (by rewrite Hempty, lookup_empty in Hi2).
      by eapply Hiso.
  - apply getSingleton_cases in Hget
      as (c & Hc & [[_ ->]|(Hnone & -> & ->)]); [by split|].
    split; cbn.
    + intros cc0 c0 [[<- _]|[_ Hc0]]%lookup_insert_Some.
      * apply Hcs in Hc. lia.
      * apply Hcs in Hc0. lia.
    + intros cc0 c0 cls0 i [[<- <-]|[_ Hc0]]%lookup_insert_Some; cbn.
      * intros [[_ <-]|[_ Hi]]%lookup_insert_Some; [lia|].
        specialize (Hins _ _ _ _ Hc Hi). lia.
      * intros Hi. specialize (Hins _ _ _ _ Hc0 Hi). lia.
    + intros cc1 c1 cls1 cc2 c2 cls2 i
        [[<- <-]|[Hne1 Hc1]]%lookup_insert_Some Hi1
        [[<- <-]|[Hne2 Hc2]]%lookup_insert_Some Hi2; cbn in *.
      * apply lookup_insert_Some in Hi1 as [[<- <-]|[Hn1 Hi1]];
          apply lookup_insert_Some in Hi2 as [[<- Heq]|[Hn2 Hi2]];
          try done.
        -- specialize (Hins _ _ _ _ Hc Hi2). lia.
        -- specialize (Hins _ _ _ _ Hc Hi1). lia.
        -- by eapply Hiso.
      * apply lookup_insert_Some in Hi1 as [[<- <-]|[Hn1 Hi1]].
        -- specialize (Hins _ _ _ _ Hc2 Hi2). lia.
        -- by eapply Hiso.
      * apply lookup_insert_Some in Hi2 as [[<- <-]|[Hn2 Hi2]].
        -- specialize (Hins _ _ _ _ Hc1 Hi1). lia.
        -- by eapply Hiso.
      * by eapply Hiso.
  - specialize (Hfn w).
    apply memoize_cases in Hmemo
      as (c & Hc & [(v & _ & _ & ->)|(_ & h' & Hrun & Hw')]); [by split|].
    rewrite Hrun in Hfn. cbn in Hfn.
    destruct r as [v|e]; subst w'; split; cbn.
    + intros cc0 c0 [[<- _]|[_ Hc0]]%lookup_insert_Some.
      * apply Hcs in Hc. lia.
      * apply Hcs in Hc0. lia.
    + intros cc0 c0 cls0 i [[<- <-]|[_ Hc0]]%lookup_insert_Some Hi; cbn in *.
      * specialize (Hins _ _ _ _ Hc Hi). lia.
      * specialize (Hins _ _ _ _ Hc0 Hi). lia.
    + intros cc1 c1 cls1 cc2 c2 cls2 i
        [[<- <-]|[Hne1 Hc1]]%lookup_insert_Some Hi1
        [[<- <-]|[Hne2 Hc2]]%lookup_insert_Some Hi2; cbn in *;
        by eapply Hiso.
    + intros cc0 c0 Hc0. apply Hcs in Hc0. lia.
    + intros cc0 c0 cls0 i Hc0 Hi. specialize (Hins _ _ _ _ Hc0 Hi). lia.
    + done.
  - split; cbn.
    + intros cc0 c0 Hc0. apply Hcs in Hc0. lia.
    + intros cc0 c0 cls0 i Hc0 Hi. specialize (Hins _ _ _ _ Hc0 Hi). lia.
    + done.
Qed.

Lemma steps_well_formed TOKEN w w' :
  well_formed w → steps TOKEN w w' → well_formed w'.
Proof.
  intros Hwf Hsteps. induction Hsteps as [|w1 w2 w3 Hstep _ IH]; [done|].
  apply IH. by eapply step_well_formed.
Qed.

(** A step never removes a container, never changes what the factory gave
    it, and never removes or replaces an entry of its registries. *)
Lemma step_evolves TOKEN w w' cc c :
  well_formed w → step TOKEN w w' →
  containers w !! cc = Some c →
  ∃ c', containers w' !! cc = Some c' ∧ evolves c c'.
Proof.
  intros Hwf Hstep Hcc.
  destruct Hstep as [plugins ts w r w' Hcreate
                    |cc0 cls w i w' Hget
                    |cc0 scope key fn w r w' Hfn Hmemo
                    |w h' Hle].
  - apply create_cases in Hcreate as [->|(c0 & _ & _ & Hconts)].
    + exists c. split; [done|apply evolves_refl].
    + exists c. split; [|apply evolves_refl].
      rewrite Hconts, lookup_insert_ne; [done|].
      apply (wf_containers _ Hwf) in Hcc. lia.
  - apply getSingleton_cases in Hget
      as (c0 & Hc0 & [[_ ->]|(Hnone & -> & ->)]).
    + exists c. split; [done|apply evolves_refl].
    + cbn. destruct (decide (cc0 = cc)) as [->|Hne].
      * rewrite lookup_insert_eq. eexists. split; [done|].
        assert (c0 = c) as -> by congruence.
        split; cbn; try done. by apply insert_subseteq.
      * rewrite lookup_insert_ne by done.
        exists c. split; [done|apply evolves_refl].
  - apply memoize_cases in Hmemo
      as (c0 & Hc0 & [(v & _ & _ & ->)|(Hnone & h' & Hrun & Hw')]).
    + exists c. split; [done|apply evolves_refl].
    + destruct r as [v|e]; subst w'; cbn.
      * destruct (decide (cc0 = cc)) as [->|Hne].
        -- rewrite lookup_insert_eq. eexists. split; [done|].
           assert (c0 = c) as -> by congruence.
           split; cbn; try done. by apply insert_subseteq.
        -- rewrite lookup_insert_ne by done.
           exists c. split; [done|apply evolves_refl].
      * exists c. split; [done|apply evolves_refl].
  - exists c. split; [done|apply evolves_refl].
Qed.

Lemma steps_evolves TOKEN w w' cc c :
  well_formed w → steps TOKEN w w' →
  containers w !! cc = Some c →
  ∃ c', containers w' !! cc = Some c' ∧ evolves c c'.
Proof.
  intros Hwf Hsteps. revert c.
  induction Hsteps as [w|w1 w2 w3 Hstep _ IH]; intros c Hcc.
  - exists c. split; [done|apply evolves_refl].
  - destruct (step_evolves _ _ _ _ _ Hwf Hstep Hcc) as (c2 & Hc2 & Hev12).
    destruct (IH (step_well_formed _ _ _ Hwf Hstep) _ Hc2)
      as (c3 & Hc3 & Hev23).
    exists c3. split; [done|]. by eapply evolves_trans.
Qed.

(** ** The capability token *)

(** The only proof objects that can be constructed carry the process
    token. *)
Lemma proof_carries_TOKEN TOKEN tok proof :
  new_ProofOfBeingCalledByContextContainer TOKEN tok = Normal proof →
  PrimFloat.eqb (token proof) TOKEN = true.
Proof.
  unfold new_ProofOfBeingCalledByContextContainer,
    assertConstructedByContextContainer. cbn.
  destruct (PrimFloat.eqb tok TOKEN) eqn:Heq; cbn; [|done].
  by intros [= <-].
Qed.

(** C3.  Constructing a ContextualSingleton subtype directly, with a value
    that is not the process token, fails with the construction error: the
    check [assertConstructedByContextContainer] throws, so the proof object
    that the initializer requires cannot be built, and the expression
    [new S(new ProofOfBeingCalledByContextContainer(tok))] throws the same
    error without allocating anything. *)
Theorem direct_construction_fails TOKEN singletonClass tok h :
  PrimFloat.eqb tok TOKEN = false →
  assertConstructedByContextContainer TOKEN tok =
    Thrown (VError "Attempted to construct ContextModuleClass directly") ∧
  new_ProofOfBeingCalledByContextContainer TOKEN tok =
    Thrown (VError "Attempted to construct ContextModuleClass directly") ∧
  construct_directly TOKEN singletonClass tok h =
    (Thrown (VError "Attempted to construct ContextModuleClass directly"), h).
Proof.
  intros Hne.
  assert (assertConstructedByContextContainer TOKEN tok =
    Thrown (VError "Attempted to construct ContextModuleClass directly"))
    as Hassert.
  { unfold assertConstructedByContextContainer. by rewrite Hne. }
  assert (new_ProofOfBeingCalledByContextContainer TOKEN tok =
    Thrown (VError "Attempted to construct ContextModuleClass directly"))
    as Hnew.
  { unfold new_ProofOfBeingCalledByContextContainer. cbn. by rewrite Hassert. }
  split_and!; [done..|].
  unfold construct_directly. by rewrite Hnew.
Qed.

(** The token 4 of the repository's test, against the token one half. *)
Lemma direct_construction_fails_witness :
  PrimFloat.eqb 4 0.5 = false ∧
  construct_directly 0.5 7 4 fresh_heap =
    (Thrown (VError "Attempted to construct ContextModuleClass directly"),
     fresh_heap).
Proof.
  split; [reflexivity|].
  apply (direct_construction_fails 0.5 7 4 fresh_heap). reflexivity.
Defined.

(** ** Containers made by the factory *)

Lemma getPlugin_delegates cc c ref w :
  containers w !! cc = Some c →
  getPlugin cc ref w =
    Some (PluginCollection.get (ContextContainerImpl.plugins c) ref).
Proof. intros Hc. unfold getPlugin. by rewrite Hc. Qed.

Lemma timestamp_reads cc c w :
  containers w !! cc = Some c →
  timestamp cc w = Some (ContextContainerImpl.timestamp c).
Proof. intros Hc. unfold timestamp. by rewrite Hc. Qed.

(** In a well-formed store the factory succeeds; the container it returns
    is new, and keeps its plugin registry and its timestamp through every
    later step. *)
Lemma create_container TOKEN plugins ts w :
  PrimFloat.eqb TOKEN TOKEN = true →
  well_formed w →
  ∃ cc w1,
    ContextContainerFactoryImpl.create TOKEN plugins ts w = (Normal cc, w1) ∧
    containers w !! cc = None ∧
    well_formed w1 ∧
    ∀ w2, steps TOKEN w1 w2 →
      ∃ c, containers w2 !! cc = Some c ∧
        ContextContainerImpl.plugins c = PluginCollection.new plugins ∧
        ContextContainerImpl.timestamp c = default (now (heap w)) ts.
Proof.
  intros Htoken Hwf.
  pose proof (create_returns TOKEN Htoken plugins ts w) as Hcreate.
  eexists _, _. split; [exact Hcreate|].
  assert (well_formed
    (mkWorld
       (mkHeap (S (next_loc (heap w))) (now (heap w)) (instances (heap w))
          (promises (heap w)))
       (<[next_loc (heap w) :=
            ContextContainerImpl.new (mkProof TOKEN)
              (PluginCollection.new plugins) (default (now (heap w)) ts)]>
          (containers w))
       (invocations w))) as Hwf1.
  { eapply step_well_formed; [exact Hwf|]. eapply step_create, Hcreate. }
  split_and!; [|done|].
  - destruct (containers w !! next_loc (heap w)) as [c|] eqn:Hc; [|done].
    apply (wf_containers _ Hwf) in Hc. lia.
  - intros w2 Hsteps.
    destruct (steps_evolves TOKEN _ w2 (next_loc (heap w))
                (ContextContainerImpl.new (mkProof TOKEN)
                   (PluginCollection.new plugins) (default (now (heap w)) ts))
                Hwf1 Hsteps) as (c & Hc & Hev).
    { cbn. apply lookup_insert_eq. }
    exists c. split; [done|].
    destruct Hev as [_ Hp Ht _ _]. by rewrite Hp, Ht.
Qed.

(** C4.  For a reference that none of the specs given to the factory names,
    the registry's [get] throws the error "Plugin not set", and
    [getPlugin] on the container made from those specs, at any later time,
    ends with that same error, neither swallowed nor wrapped. *)
Theorem getPlugin_unregistered TOKEN plugins ts w ref :
  PrimFloat.eqb TOKEN TOKEN = true →
  well_formed w →
  ref ∉ reference <$> plugins →
  PluginCollection.get (PluginCollection.new plugins) ref =
    Thrown (VError "Plugin not set") ∧
  ∃ cc w1,
    ContextContainerFactoryImpl.create TOKEN plugins ts w = (Normal cc, w1) ∧
    ∀ w2, steps TOKEN w1 w2 →
      getPlugin cc ref w2 = Some (Thrown (VError "Plugin not set")).
Proof.
  intros Htoken Hwf Hnot.
  assert (PluginCollection.get (PluginCollection.new plugins) ref =
    Thrown (VError "Plugin not set")) as Hget.
  { apply get_unregistered, new_absent, Hnot. }
  split; [done|].
  destruct (create_container TOKEN plugins ts w Htoken Hwf)
    as (cc & w1 & Hcreate & _ & _ & Hlater).
  exists cc, w1. split; [done|]. intros w2 Hsteps.
  destruct (Hlater w2 Hsteps) as (c & Hc & Hp & _).
  by rewrite (getPlugin_delegates _ _ _ _ Hc), Hp, Hget.
Qed.

(** The test "Fails to get plugin if not set": [create([])], then
    [getPlugin] of a reference. *)
Lemma getPlugin_unregistered_witness :
  ∃ cc w1,
    ContextContainerFactoryImpl.create 0.5 [] None (empty_world fresh_heap)
      = (Normal cc, w1) ∧
    ∀ w2, steps 0.5 w1 w2 →
      getPlugin cc 3 w2 = Some (Thrown (VError "Plugin not set")).
Proof.
  apply (getPlugin_unregistered 0.5 [] None (empty_world fresh_heap) 3).
  - reflexivity.
  - apply well_formed_empty.
  - cbn. apply not_elem_of_nil.
Defined.

(** C10.  When the spec that the registry keeps for a reference (the last one
    of the list that names it) carries [null] or [undefined], [get] and
    [getPlugin] throw "Plugin not set" although an implementation was
    supplied: the result is the one an unregistered reference gets. *)
Theorem getPlugin_nullish_implementation TOKEN earlier p later ts w :
  PrimFloat.eqb TOKEN TOKEN = true →
  well_formed w →
  reference p ∉ reference <$> later →
  is_nullish (implementation p) = true →
  PluginCollection.plugins (PluginCollection.new (earlier ++ p :: later))
    !! reference p = Some (implementation p) ∧
  PluginCollection.get (PluginCollection.new (earlier ++ p :: later))
    (reference p) = Thrown (VError "Plugin not set") ∧
  (∀ others, reference p ∉ reference <$> others →
     PluginCollection.get (PluginCollection.new others) (reference p) =
     PluginCollection.get (PluginCollection.new (earlier ++ p :: later))
       (reference p)) ∧
  ∃ cc w1,
    ContextContainerFactoryImpl.create TOKEN (earlier ++ p :: later) ts w
      = (Normal cc, w1) ∧
    ∀ w2, steps TOKEN w1 w2 →
      getPlugin cc (reference p) w2 = Some (Thrown (VError "Plugin not set")).
Proof.
  intros Htoken Hwf Hlast Hnull.
  pose proof (new_last earlier p later Hlast) as Hreg.
  assert (PluginCollection.get (PluginCollection.new (earlier ++ p :: later))
            (reference p) = Thrown (VError "Plugin not set")) as Hget.
  { rewrite (get_registered _ _ _ Hreg). by rewrite Hnull. }
  split_and!; [done..| |].
  - intros others Hnot. rewrite Hget.
    apply get_unregistered, new_absent, Hnot.
  - destruct (create_container TOKEN (earlier ++ p :: later) ts w Htoken Hwf)
      as (cc & w1 & Hcreate & _ & _ & Hlater).
    exists cc, w1. split; [done|]. intros w2 Hsteps.
    destruct (Hlater w2 Hsteps) as (c & Hc & Hp & _).
    by rewrite (getPlugin_delegates _ _ _ _ Hc), Hp, Hget.
Qed.

(** A container made from the single spec [{ reference, implementation:
    null }]. *)
Lemma getPlugin_nullish_implementation_witness :
  ∃ cc w1,
    ContextContainerFactoryImpl.create 0.5 [mkPluginSpec 3 VNull] None
      (empty_world fresh_heap) = (Normal cc, w1) ∧
    ∀ w2, steps 0.5 w1 w2 →
      getPlugin cc 3 w2 = Some (Thrown (VError "Plugin not set")).
Proof.
  apply (getPlugin_nullish_implementation 0.5 [] (mkPluginSpec 3 VNull) []
           None (empty_world fresh_heap)).
  - reflexivity.
  - apply well_formed_empty.
  - cbn. apply not_elem_of_nil.
  - reflexivity.
Defined.

(** C7, as stated, fails: of two specs with the same reference the last one
    carries [undefined], and [getPlugin] throws instead of returning that
    implementation. *)
Lemma duplicate_reference_counterexample :
  PluginCollection.get
    (PluginCollection.new
       [mkPluginSpec 3 (VObject 10); mkPluginSpec 3 VUndefined]) 3
    = Thrown (VError "Plugin not set") ∧
  ∃ cc w1,
    ContextContainerFactoryImpl.create 0.5
      [mkPluginSpec 3 (VObject 10); mkPluginSpec 3 VUndefined] None
      (empty_world fresh_heap) = (Normal cc, w1) ∧
    getPlugin cc 3 w1 = Some (Thrown (VError "Plugin not set")) ∧
    getPlugin cc 3 w1 ≠ Some (Normal VUndefined).
Proof.
  split; [reflexivity|].
  eexists _, _. split; [reflexivity|]. split; [reflexivity|].
  intros H. vm_compute in H. discriminate H.
Qed.

(** C7, amended.  When several specs of the list name the same reference, the
    registry holds for it the implementation of the last such spec, and
    [getPlugin] on that reference returns that implementation provided it is
    neither [null] nor [undefined]. *)
Theorem duplicate_reference_last_wins TOKEN earlier p later ts w :
  PrimFloat.eqb TOKEN TOKEN = true →
  well_formed w →
  reference p ∉ reference <$> later →
  is_nullish (implementation p) = false →
  PluginCollection.plugins (PluginCollection.new (earlier ++ p :: later))
    !! reference p = Some (implementation p) ∧
  PluginCollection.get (PluginCollection.new (earlier ++ p :: later))
    (reference p) = Normal (implementation p) ∧
  ∃ cc w1,
    ContextContainerFactoryImpl.create TOKEN (earlier ++ p :: later) ts w
      = (Normal cc, w1) ∧
    ∀ w2, steps TOKEN w1 w2 →
      getPlugin cc (reference p) w2 = Some (Normal (implementation p)).
Proof.
  intros Htoken Hwf Hlast Hnull.
  pose proof (new_last earlier p later Hlast) as Hreg.
  assert (PluginCollection.get (PluginCollection.new (earlier ++ p :: later))
            (reference p) = Normal (implementation p)) as Hget.
  { rewrite (get_registered _ _ _ Hreg). by rewrite Hnull. }
  split_and!; [done..|].
  destruct (create_container TOKEN (earlier ++ p :: later) ts w Htoken Hwf)
    as (cc & w1 & Hcreate & _ & _ & Hlater).
  exists cc, w1. split; [done|]. intros w2 Hsteps.
  destruct (Hlater w2 Hsteps) as (c & Hc & Hp & _).
  by rewrite (getPlugin_delegates _ _ _ _ Hc), Hp, Hget.
Qed.

(** Three specs for one reference: the third implementation is returned. *)
Lemma duplicate_reference_last_wins_witness :
  ∃ cc w1,
    ContextContainerFactoryImpl.create 0.5
      [mkPluginSpec 3 (VObject 10); mkPluginSpec 4 (VObject 12);
       mkPluginSpec 3 VNull; mkPluginSpec 3 (VObject 11)] None
      (empty_world fresh_heap) = (Normal cc, w1) ∧
    ∀ w2, steps 0.5 w1 w2 → getPlugin cc 3 w2 = Some (Normal (VObject 11)).
Proof.
  apply (duplicate_reference_last_wins 0.5
           [mkPluginSpec 3 (VObject 10); mkPluginSpec 4 (VObject 12);
            mkPluginSpec 3 VNull]
           (mkPluginSpec 3 (VObject 11)) [] None (empty_world fresh_heap)).
  - reflexivity.
  - apply well_formed_empty.
  - cbn. apply not_elem_of_nil.
  - reflexivity.
Defined.

(** C5, as stated, fails for the implementation [null]: the container made
    by [create([{reference, implementation: null}])] throws on [getPlugin]
    instead of returning [null]. *)
Lemma getPlugin_registered_counterexample :
  PluginCollection.get (PluginCollection.new [mkPluginSpec 3 VNull]) 3
    = Thrown (VError "Plugin not set") ∧
  ∃ cc w1,
    ContextContainerFactoryImpl.create 0.5 [mkPluginSpec 3 VNull] None
      (empty_world fresh_heap) = (Normal cc, w1) ∧
    getPlugin cc 3 w1 = Some (Thrown (VError "Plugin not set")) ∧
    getPlugin cc 3 w1 ≠ Some (Normal VNull).
Proof.
  split; [reflexivity|].
  eexists _, _. split; [reflexivity|]. split; [reflexivity|].
  intros H. vm_compute in H. discriminate H.
Qed.

(** C5, amended.  For every reference and every implementation that is
    neither [null] nor [undefined], the container made by
    [create([{reference, implementation}])] returns that very implementation
    from [getPlugin], at any later time; and a second container, made later
    with another such implementation for the same reference, returns its own
    while the first still returns its own. *)
Theorem getPlugin_registered TOKEN ref implA tsA w :
  PrimFloat.eqb TOKEN TOKEN = true →
  well_formed w →
  is_nullish implA = false →
  PluginCollection.get (PluginCollection.new [mkPluginSpec ref implA]) ref
    = Normal implA ∧
  ∃ ccA w1,
    ContextContainerFactoryImpl.create TOKEN [mkPluginSpec ref implA] tsA w
      = (Normal ccA, w1) ∧
    (∀ w2, steps TOKEN w1 w2 → getPlugin ccA ref w2 = Some (Normal implA)) ∧
    ∀ w2 implB tsB,
      steps TOKEN w1 w2 →
      is_nullish implB = false →
      ∃ ccB w3,
        ContextContainerFactoryImpl.create TOKEN [mkPluginSpec ref implB] tsB
          w2 = (Normal ccB, w3) ∧
        ccB ≠ ccA ∧
        ∀ w4, steps TOKEN w3 w4 →
          getPlugin ccA ref w4 = Some (Normal implA) ∧
          getPlugin ccB ref w4 = Some (Normal implB).
Proof.
  intros Htoken Hwf HnullA.
  assert (∀ impl, is_nullish impl = false →
    PluginCollection.get (PluginCollection.new [mkPluginSpec ref impl]) ref
      = Normal impl) as Hget.
  { intros impl Hnull. unfold PluginCollection.get, Map_get. cbn.
    rewrite lookup_insert_eq. cbn. by rewrite Hnull. }
  destruct (create_container TOKEN [mkPluginSpec ref implA] tsA w Htoken Hwf)
    as (ccA & w1 & HcreateA & _ & Hwf1 & HlaterA).
  assert (∀ w2, steps TOKEN w1 w2 → getPlugin ccA ref w2 = Some (Normal implA))
    as HgetA.
  { intros w2 Hsteps. destruct (HlaterA w2 Hsteps) as (c & Hc & Hp & _).
    by rewrite (getPlugin_delegates _ _ _ _ Hc), Hp, Hget. }
  split; [by apply Hget|].
  exists ccA, w1. split_and!; [done..|].
  intros w2 implB tsB Hsteps12 HnullB.
  pose proof (steps_well_formed _ _ _ Hwf1 Hsteps12) as Hwf2.
  destruct (create_container TOKEN [mkPluginSpec ref implB] tsB w2 Htoken Hwf2)
    as (ccB & w3 & HcreateB & HnewB & Hwf3 & HlaterB).
  exists ccB, w3. split_and!; [done| |].
  - intros ->. destruct (HlaterA w2 Hsteps12) as (c & Hc & _). congruence.
  - intros w4 Hsteps34. split.
    + apply HgetA. etrans; [exact Hsteps12|].
      eapply rtc_l; [|exact Hsteps34]. eapply step_create, HcreateB.
    + destruct (HlaterB w4 Hsteps34) as (c & Hc & Hp & _).
      by rewrite (getPlugin_delegates _ _ _ _ Hc), Hp, Hget.
Qed.

(** The tests "Gets the plugin that was set" and "Can store different plugins
    for different context containers", with the implementation objects at
    addresses 10 and 11. *)
Lemma getPlugin_registered_witness :
  ∃ ccA w1,
    ContextContainerFactoryImpl.create 0.5 [mkPluginSpec 3 (VObject 10)] None
      (empty_world fresh_heap) = (Normal ccA, w1) ∧
    getPlugin ccA 3 w1 = Some (Normal (VObject 10)) ∧
    ∃ ccB w3,
      ContextContainerFactoryImpl.create 0.5 [mkPluginSpec 3 (VObject 11)]
        None w1 = (Normal ccB, w3) ∧
      ccB ≠ ccA ∧
      getPlugin ccA 3 w3 = Some (Normal (VObject 10)) ∧
      getPlugin ccB 3 w3 = Some (Normal (VObject 11)).
Proof.
  destruct (getPlugin_registered 0.5 3 (VObject 10) None
              (empty_world fresh_heap))
    as (_ & ccA & w1 & HcreateA & HgetA & Hsecond).
  - reflexivity.
  - apply well_formed_empty.
  - reflexivity.
  - exists ccA, w1. split; [exact HcreateA|].
    split; [apply HgetA, rtc_refl|].
    destruct (Hsecond w1 (VObject 11) None (rtc_refl _ _) eq_refl)
      as (ccB & w3 & HcreateB & Hne & Hboth).
    exists ccB, w3. split; [exact HcreateB|]. split; [exact Hne|].
    apply Hboth, rtc_refl.
Defined.

(** ** The timestamp *)

(** C9.  The factory succeeds and fixes the timestamp of the container it
    returns to the supplied value when one is given and to the reading of the
    clock at creation otherwise; whatever happens later in the process, the
    accessor returns that same value. *)
Theorem create_fixes_timestamp TOKEN plugins ts w :
  PrimFloat.eqb TOKEN TOKEN = true →
  well_formed w →
  ∃ cc w1,
    ContextContainerFactoryImpl.create TOKEN plugins ts w = (Normal cc, w1) ∧
    ∀ w2, steps TOKEN w1 w2 →
      timestamp cc w2 =
        Some (match ts with
              | Some supplied => supplied
              | None => now (heap w)
              end).
Proof.
  intros Htoken Hwf.
  destruct (create_container TOKEN plugins ts w Htoken Hwf)
    as (cc & w1 & Hcreate & _ & _ & Hlater).
  exists cc, w1. split; [done|]. intros w2 Hsteps.
  destruct (Hlater w2 Hsteps) as (c & Hc & _ & Ht).
  rewrite (timestamp_reads _ _ _ Hc), Ht. by destruct ts.
Qed.

(** A container created without a timestamp at clock reading 1609459200000,
    read after the clock has moved on. *)
Lemma create_fixes_timestamp_witness :
  ∃ cc w1,
    ContextContainerFactoryImpl.create 0.5 [] None (empty_world fresh_heap)
      = (Normal cc, w1) ∧
    timestamp cc (mkWorld (mkHeap 1 1609459200999 ∅ ∅) (containers w1)
                    (invocations w1))
      = Some 1609459200000%Z.
Proof.
  destruct (create_fixes_timestamp 0.5 [] None (empty_world fresh_heap))
    as (cc & w1 & Hcreate & Hlater).
  - reflexivity.
  - apply well_formed_empty.
  - exists cc, w1. split; [exact Hcreate|].
    apply Hlater. apply rtc_once, step_application.
    vm_compute in Hcreate. injection Hcreate as _ <-. cbn. lia.
Defined.

(** ** The singleton registry *)

(** On a container, [getSingleton] returns, and afterwards the registry
    holds what it returned. *)
Lemma getSingleton_returns TOKEN cc c cls w :
  containers w !! cc = Some c →
  ∃ i w1 c1,
    getSingleton cc cls w = Some (i, w1) ∧
    step TOKEN w w1 ∧
    containers w1 !! cc = Some c1 ∧
    ContextContainerImpl.singletons c1 !! cls = Some i.
Proof.
  intros Hc.
  destruct (ContextContainerImpl.singletons c !! cls) as [i|] eqn:Hi.
  - assert (getSingleton cc cls w = Some (i, w)) as Hget.
    { unfold getSingleton. rewrite Hc. cbn. by rewrite Hi. }
    exists i, w, c. split_and!; [done| |done..].
    eapply step_getSingleton, Hget.
  - eexists _, _, _. split_and!.
    + unfold getSingleton. rewrite Hc. cbn. rewrite Hi. reflexivity.
    + eapply (step_getSingleton _ cc cls).
      unfold getSingleton. rewrite Hc. cbn. rewrite Hi. reflexivity.
    + cbn. apply lookup_insert_eq.
    + cbn. apply lookup_insert_eq.
Qed.

(** C8.  On a container of a well-formed store [getSingleton] returns an
    instance; every later call with the same class on that container returns
    the same instance and leaves the store as it is; and a call with that
    class on any other container returns a different instance. *)
Theorem getSingleton_one_instance_per_container TOKEN w cc c singletonClass :
  well_formed w →
  containers w !! cc = Some c →
  ∃ instance w1,
    getSingleton cc singletonClass w = Some (instance, w1) ∧
    ∀ w2, steps TOKEN w1 w2 →
      getSingleton cc singletonClass w2 = Some (instance, w2) ∧
      ∀ cc' c', cc' ≠ cc → containers w2 !! cc' = Some c' →
        ∃ instance' w3,
          getSingleton cc' singletonClass w2 = Some (instance', w3) ∧
          instance' ≠ instance.
Proof.
  intros Hwf Hc.
  destruct (getSingleton_returns TOKEN cc c singletonClass w Hc)
    as (i & w1 & c1 & Hget & Hstep & Hc1 & Hi1).
  exists i, w1. split; [done|]. intros w2 Hsteps.
  pose proof (step_well_formed _ _ _ Hwf Hstep) as Hwf1.
  pose proof (steps_well_formed _ _ _ Hwf1 Hsteps) as Hwf2.
  destruct (steps_evolves _ _ _ _ _ Hwf1 Hsteps Hc1) as (c2 & Hc2 & Hev).
  assert (ContextContainerImpl.singletons c2 !! singletonClass = Some i)
    as Hi2.
  { eapply lookup_weaken; [exact Hi1|]. apply Hev. }
  split.
  - unfold getSingleton. rewrite Hc2. cbn. by rewrite Hi2.
  - intros cc' c' Hne Hc'.
    destruct (getSingleton_returns TOKEN cc' c' singletonClass w2 Hc')
      as (i' & w3 & c3 & Hget' & _ & _ & _).
    exists i', w3. split; [done|]. intros ->.
    apply getSingleton_cases in Hget'
      as (c'' & Hc'' & [[Hi' _]|(_ & Hfresh & _)]).
    + destruct (wf_isolated _ Hwf2 _ _ _ _ _ _ _ Hc'' Hi' Hc2 Hi2). done.
    + pose proof (wf_instances _ Hwf2 _ _ _ _ Hc2 Hi2). lia.
Qed.

Lemma well_formed_one_container : well_formed one_container.
Proof.
  eapply (step_well_formed 0.5); [apply (well_formed_empty fresh_heap)|].
  by apply (step_create 0.5 [] None _ (Normal 0)).
Qed.

Lemma well_formed_two_containers : well_formed two_containers.
Proof.
  eapply (step_well_formed 0.5); [apply well_formed_one_container|].
  by apply (step_create 0.5 [] None _ (Normal 1)).
Qed.

(** The test "Attaches different instances to different context containers":
    two containers, one class. *)
Lemma getSingleton_one_instance_per_container_witness :
  ∃ instance w1,
    getSingleton 0 7 two_containers = Some (instance, w1) ∧
    getSingleton 0 7 w1 = Some (instance, w1) ∧
    ∃ instance' w3,
      getSingleton 1 7 w1 = Some (instance', w3) ∧ instance' ≠ instance.
Proof.
  destruct (getSingleton_one_instance_per_container 0.5 two_containers 0
    (ContextContainerImpl.new (mkProof 0.5) (PluginCollection.new [])
       1609459200000)
    7) as (i & w1 & Hget & Hlater).
  - apply well_formed_two_containers.
  - reflexivity.
  - exists i, w1. split; [exact Hget|].
    destruct (Hlater w1 (rtc_refl _ _)) as [Hagain Hother].
    split; [exact Hagain|].
    apply (Hother 1 (ContextContainerImpl.new (mkProof 0.5)
                       (PluginCollection.new []) 1609459200000)).
    + discriminate.
    + vm_compute in Hget. injection Hget as _ <-. reflexivity.
Defined.

(** ** The memoization cache *)

(** A call of [memoize] that returns a value leaves that value in the cache
    of its container. *)
Lemma memoize_caches cc scope key fn w v w1 :
  memoize cc scope key fn w = Some (Normal v, w1) →
  ∃ c1, containers w1 !! cc = Some c1 ∧
        ContextContainerImpl.memoized c1 !! (scope, key) = Some v.
Proof.
  intros Hmemo.
  apply memoize_cases in Hmemo
    as (c & Hc & [(v' & Hv' & [= <-] & ->)|(_ & h' & _ & ->)]).
  - by exists c.
  - eexists. cbn. split; [apply lookup_insert_eq|]. cbn.
    apply lookup_insert_eq.
Qed.

(** A cached value is returned as it is: the function is not called and the
    store does not change. *)
Lemma memoize_hit cc c scope key fn w v :
  containers w !! cc = Some c →
  ContextContainerImpl.memoized c !! (scope, key) = Some v →
  memoize cc scope key fn w = Some (Normal v, w).
Proof. intros Hc Hv. unfold memoize. rewrite Hc. cbn. by rewrite Hv. Qed.

(** A value that [memoize] has returned for a pair stays the answer for
    that pair: no step removes or replaces a cache entry. *)
Lemma memoize_again TOKEN w cc scope key f1 v w1 w2 f2 :
  well_formed w →
  allocates_only f1 →
  memoize cc scope key f1 w = Some (Normal v, w1) →
  steps TOKEN w1 w2 →
  memoize cc scope key f2 w2 = Some (Normal v, w2).
Proof.
  intros Hwf Hf1 Hmemo Hsteps.
  pose proof (step_well_formed TOKEN _ _ Hwf
                (step_memoize TOKEN _ _ _ _ _ _ _ Hf1 Hmemo)) as Hwf1.
  destruct (memoize_caches _ _ _ _ _ _ _ Hmemo) as (c1 & Hc1 & Hv1).
  destruct (steps_evolves _ _ _ _ _ Hwf1 Hsteps Hc1) as (c2 & Hc2 & Hev).
  apply (memoize_hit _ c2); [done|].
  eapply lookup_weaken; [exact Hv1|]. apply Hev.
Qed.

(** C2.  Once [memoize(s, k, f1)] has returned a value, every later call
    [memoize(s, k, f2)] on the same container returns that value and leaves
    the whole store, the record of invocations included, as it was: [f2] is
    not invoked.  When the pair was not cached before the first call, the
    value is the one [f1] returned, and [f1] was invoked then. *)
Theorem memoize_first_call_wins TOKEN w cc scope key f1 v w1 :
  well_formed w →
  allocates_only f1 →
  memoize cc scope key f1 w = Some (Normal v, w1) →
  (∀ c, containers w !! cc = Some c →
        ContextContainerImpl.memoized c !! (scope, key) = None →
        (fn_run f1 w).1 = Normal v ∧
        invocations w1 = fn_id f1 :: invocations w) ∧
  ∀ w2 f2, steps TOKEN w1 w2 →
    memoize cc scope key f2 w2 = Some (Normal v, w2).
Proof.
  intros Hwf Hf1 Hmemo. split.
  - intros c Hc Hnone.
    apply memoize_cases in Hmemo
      as (c' & Hc' & [(v' & Hv' & _)|(_ & h' & Hrun & ->)]).
    + congruence.
    + by rewrite Hrun.
  - intros w2 f2 Hsteps. by eapply memoize_again.
Qed.

(** The test "Returns the same value for the same key":
    [Counter.returnArgument(cc, 'key', 1)] then
    [Counter.returnArgument(cc, 'key', 2)], the class [Counter] at address
    20. *)
Lemma memoize_first_call_wins_witness :
  ∃ w1,
    memoize 0 (VObject 20) "key" (returning 30 (VNumber 1)) one_container
      = Some (Normal (VNumber 1), w1) ∧
    memoize 0 (VObject 20) "key" (returning 31 (VNumber 2)) w1
      = Some (Normal (VNumber 1), w1).
Proof.
  eexists. split; [reflexivity|].
  eapply (memoize_first_call_wins 0.5 one_container 0 (VObject 20) "key"
            (returning 30 (VNumber 1)) (VNumber 1)).
  - apply well_formed_one_container.
  - intros h. cbn. lia.
  - reflexivity.
  - apply rtc_refl.
Defined.

(** C6.  When the pair is not cached and [fn] throws, [memoize] ends with
    that same error, no container changes (so no entry is stored), and the
    next call with the same pair invokes the function it is given. *)
Theorem memoize_throw_not_cached cc c scope key fn e h' w :
  containers w !! cc = Some c →
  ContextContainerImpl.memoized c !! (scope, key) = None →
  fn_run fn w = (Thrown e, h') →
  ∃ w1,
    memoize cc scope key fn w = Some (Thrown e, w1) ∧
    containers w1 = containers w ∧
    heap w1 = h' ∧
    invocations w1 = fn_id fn :: invocations w ∧
    ∀ retry, ∃ r w2,
      memoize cc scope key retry w1 = Some (r, w2) ∧
      fn_run retry w1 = (r, heap w2) ∧
      invocations w2 = fn_id retry :: invocations w1.
Proof.
  intros Hc Hnone Hrun.
  exists (mkWorld h' (containers w) (fn_id fn :: invocations w)).
  split_and!; [|done..|].
  - unfold memoize. rewrite Hc. cbn. by rewrite Hnone, Hrun.
  - intros retry. unfold memoize. cbn. rewrite Hc. cbn. rewrite Hnone.
    destruct (fn_run retry _) as [[v|e'] h''] eqn:Hretry;
      eexists _, _; (split; [reflexivity|]); by cbn.
Qed.

(** A function that throws, then [() => 2] under the same key. *)
Lemma memoize_throw_not_cached_witness :
  ∃ w1,
    memoize 0 (VObject 20) "key" (throwing 30 (VError "boom")) one_container
      = Some (Thrown (VError "boom"), w1) ∧
    containers w1 = containers one_container ∧
    ∃ w2,
      memoize 0 (VObject 20) "key" (returning 31 (VNumber 2)) w1
        = Some (Normal (VNumber 2), w2) ∧
      invocations w2 = [31; 30].
Proof.
  destruct (memoize_throw_not_cached 0
    (ContextContainerImpl.new (mkProof 0.5) (PluginCollection.new [])
       1609459200000)
    (VObject 20) "key" (throwing 30 (VError "boom")) (VError "boom")
    (heap one_container) one_container)
    as (w1 & Hthrow & Hsame & Hheap & Hinv & Hretry);
    [reflexivity..|].
  exists w1. split; [exact Hthrow|]. split; [exact Hsame|].
  destruct (Hretry (returning 31 (VNumber 2))) as (r & w2 & Hmemo & Hrun & Hinv2).
  exists w2. cbn in Hrun. injection Hrun as <- _.
  split; [exact Hmemo|]. by rewrite Hinv2, Hinv.
Defined.

(** C1.  When the pair is not cached and [fn] returns a promise that is
    still pending, the first call of [memoize] invokes [fn] once and returns
    that promise, which the cache already holds while it is pending; any
    later call with the same pair, before or after the promise settles,
    returns the same promise without invoking [fn], so both callers observe
    the same settlement in every later store. *)
Theorem memoize_single_flight TOKEN w cc c scope key fn p h1 :
  well_formed w →
  allocates_only fn →
  containers w !! cc = Some c →
  ContextContainerImpl.memoized c !! (scope, key) = None →
  fn_run fn w = (Normal (VObject p), h1) →
  promises h1 !! p = Some Pending →
  ∃ w1,
    memoize cc scope key fn w = Some (Normal (VObject p), w1) ∧
    invocations w1 = fn_id fn :: invocations w ∧
    (∃ c1, containers w1 !! cc = Some c1 ∧
           ContextContainerImpl.memoized c1 !! (scope, key)
             = Some (VObject p)) ∧
    settlement w1 (VObject p) = Some Pending ∧
    ∀ w2, steps TOKEN w1 w2 →
      ∃ second,
        memoize cc scope key fn w2 = Some (Normal second, w2) ∧
        ∀ w3, settlement w3 second = settlement w3 (VObject p).
Proof.
  intros Hwf Hfn Hc Hnone Hrun Hpending.
  assert (∃ w1, memoize cc scope key fn w = Some (Normal (VObject p), w1) ∧
                heap w1 = h1 ∧ invocations w1 = fn_id fn :: invocations w)
    as (w1 & Hmemo & Hheap & Hinv).
  { eexists. unfold memoize. rewrite Hc. cbn. rewrite Hnone, Hrun.
    by split_and!. }
  exists w1. split_and!; [done..| | |].
  - by apply (memoize_caches _ _ _ fn w).
  - cbn. by rewrite Hheap.
  - intros w2 Hsteps. exists (VObject p). split; [|done].
    by eapply (memoize_again TOKEN w).
Qed.

(** Two callers ask for the same pair with an [async] function before its
    promise settles; the promise is the object at address 1. *)
Lemma memoize_single_flight_witness :
  ∃ w1,
    memoize 0 (VObject 20) "key" (suspending 30) one_container
      = Some (Normal (VObject 1), w1) ∧
    invocations w1 = [30] ∧
    settlement w1 (VObject 1) = Some Pending ∧
    ∃ second,
      memoize 0 (VObject 20) "key" (suspending 30) w1
        = Some (Normal second, w1) ∧
      ∀ w3, settlement w3 second = settlement w3 (VObject 1).
Proof.
  destruct (memoize_single_flight 0.5 one_container 0
    (ContextContainerImpl.new (mkProof 0.5) (PluginCollection.new [])
       1609459200000)
    (VObject 20) "key" (suspending 30) 1
    (mkHeap 2 1609459200000 ∅ (<[1 := Pending]> ∅)))
    as (w1 & Hfirst & Hinv & _ & Hpending & Hsecond).
  - apply well_formed_one_container.
  - intros h. cbn. lia.
  - reflexivity.
  - reflexivity.
  - reflexivity.
  - reflexivity.
  - exists w1. split; [exact Hfirst|]. split; [exact Hinv|].
    split; [exact Hpending|]. apply Hsecond, rtc_refl.
Defined.

(** ** Stores a process can reach, and the repository's remaining tests *)

(** Every store a process reaches from one without containers is well
    formed, so the hypothesis [well_formed] of the theorems above holds
    throughout the life of a process. *)
Lemma reachable_well_formed TOKEN h w :
  steps TOKEN (empty_world h) w → well_formed w.
Proof. apply steps_well_formed, well_formed_empty. Qed.

(** "Returns different values for different keys". *)
Example memoize_different_keys :
  ∃ w1 w2,
    memoize 0 (VObject 20) "key1" (returning 30 (VNumber 1)) one_container
      = Some (Normal (VNumber 1), w1) ∧
    memoize 0 (VObject 20) "key2" (returning 31 (VNumber 2)) w1
      = Some (Normal (VNumber 2), w2).
Proof. eexists _, _. split; reflexivity. Qed.

(** "Returns different values for different classes": the classes [Counter]
    and [Counter2] at addresses 20 and 21 are the scopes. *)
Example memoize_different_scopes :
  ∃ w1 w2,
    memoize 0 (VObject 20) "key" (returning 30 (VNumber 1)) one_container
      = Some (Normal (VNumber 1), w1) ∧
    memoize 0 (VObject 21) "key" (returning 31 (VNumber 2)) w1
      = Some (Normal (VNumber 2), w2).
Proof. eexists _, _. split; reflexivity. Qed.

(** "Returns different values for different context containers". *)
Example memoize_different_containers :
  ∃ w1 w2,
    memoize 0 (VObject 20) "key" (returning 30 (VNumber 1)) two_containers
      = Some (Normal (VNumber 1), w1) ∧
    memoize 1 (VObject 20) "key" (returning 31 (VNumber 2)) w1
      = Some (Normal (VNumber 2), w2).
Proof. eexists _, _. split; reflexivity. Qed.

(** The factory itself fails when the token is not a number: the proof
    object cannot be built even from [TOKEN].  [Math.random()] never returns
    NaN, which is why the theorems assume the token equal to itself. *)
Example create_with_NaN_token :
  ContextContainerFactoryImpl.create nan [] None (empty_world fresh_heap)
    = (Thrown (VError "Attempted to construct ContextModuleClass directly"),
       empty_world fresh_heap).
Proof. reflexivity. Qed.

(** * Further properties of the sources *)

(** ** PluginCollection: the constructor and [get] together *)

Section PluginCollectionLaws.

Implicit Types (specs : list PluginSpec) (m : gmap PluginReference Value).

(** What the loop adds does not depend on the map it starts from. *)
Lemma set_all_union specs m : set_all specs m = set_all specs ∅ ∪ m.
Proof.
  revert m. induction specs as [|p specs IH]; intros m.
  - cbn. by rewrite (left_id_L ∅ (∪)).
  - cbn. fold (set_all specs (<[reference p:=implementation p]> m)).
    fold (set_all specs (<[reference p:=implementation p]> ∅)).
    rewrite (IH (<[_:=_]> m)), (IH (<[_:=_]> ∅)).
    rewrite insert_empty, (insert_union_singleton_l m).
    by rewrite (assoc_L (∪)).
Qed.

Lemma new_cons p specs :
  PluginCollection.plugins (PluginCollection.new (p :: specs)) =
    PluginCollection.plugins (PluginCollection.new specs)
      ∪ {[reference p := implementation p]}.
Proof.
  cbn. fold (set_all specs (<[reference p:=implementation p]> ∅)).
  fold (set_all specs ∅). by rewrite set_all_union, insert_empty.
Qed.

Lemma new_app specs1 specs2 :
  PluginCollection.plugins (PluginCollection.new (specs1 ++ specs2)) =
    PluginCollection.plugins (PluginCollection.new specs2)
      ∪ PluginCollection.plugins (PluginCollection.new specs1).
Proof.
  cbn. rewrite fold_left_app.
  fold (set_all specs1 ∅). fold (set_all specs2 (set_all specs1 ∅)).
  fold (set_all specs2 ∅). apply set_all_union.
Qed.

(** The registry has an entry for a reference exactly when a spec names
    it. *)
Lemma new_lookup_None specs ref :
  PluginCollection.plugins (PluginCollection.new specs) !! ref = None ↔
  ref ∉ reference <$> specs.
Proof.
  split; [|apply new_absent].
  induction specs as [|p specs IH]; [intros _; apply not_elem_of_nil|].
  rewrite new_cons, lookup_union_None, lookup_singleton_None.
  intros [Hspecs Hne]. rewrite fmap_cons, not_elem_of_cons. auto.
Qed.

(** An entry of the registry comes from the last spec that names its
    reference. *)
Lemma new_lookup_Some specs ref v :
  PluginCollection.plugins (PluginCollection.new specs) !! ref = Some v →
  ∃ earlier p later,
    specs = earlier ++ p :: later ∧ reference p = ref ∧
    implementation p = v ∧ ref ∉ reference <$> later.
Proof.
  induction specs as [|p specs IH]; [by cbn; rewrite lookup_empty|].
  rewrite new_cons, lookup_union_Some_raw.
  intros [Hspecs|[Hnone Hp]].
  - destruct (IH Hspecs) as (earlier & q & later & -> & Hq & Hv & Hlast).
    by exists (p :: earlier), q, later.
  - apply lookup_singleton_Some in Hp as [Href Himpl].
    exists [], p, specs. split_and!; [done..|]. by apply new_lookup_None.
Qed.

End PluginCollectionLaws.

(** X1.  [get] returns a value exactly when the last spec of the list that
    names the reference carries that value and the value is neither [null]
    nor [undefined]: nothing is returned that was not supplied for that
    reference, and [null] and [undefined] are never returned. *)
Theorem get_returns_last_supplied (specs : list PluginSpec) ref v :
  PluginCollection.get (PluginCollection.new specs) ref = Normal v ↔
  is_nullish v = false ∧
  ∃ earlier p later,
    specs = earlier ++ p :: later ∧ reference p = ref ∧
    implementation p = v ∧ ref ∉ reference <$> later.
Proof.
  split.
  - unfold PluginCollection.get, Map_get.
    destruct (PluginCollection.plugins (PluginCollection.new specs) !! ref)
      as [v'|] eqn:Hv'; cbn; [|done].
    destruct (is_nullish v') eqn:Hnull; [done|]. intros [= <-].
    split; [done|]. by apply new_lookup_Some.
  - intros (Hnull & earlier & p & later & -> & <- & <- & Hlast).
    rewrite (get_registered _ _ _ (new_last earlier p later Hlast)).
    by rewrite Hnull.
Qed.

(** X2.  [get] throws exactly when no spec names the reference or the last
    spec that names it carries [null] or [undefined], and what it throws is
    always the error "Plugin not set". *)
Theorem get_throws_iff (specs : list PluginSpec) ref e :
  PluginCollection.get (PluginCollection.new specs) ref = Thrown e ↔
  e = VError "Plugin not set" ∧
  (ref ∉ reference <$> specs ∨
   ∃ earlier p later,
     specs = earlier ++ p :: later ∧ reference p = ref ∧
     is_nullish (implementation p) = true ∧ ref ∉ reference <$> later).
Proof.
  split.
  - unfold PluginCollection.get, Map_get.
    destruct (PluginCollection.plugins (PluginCollection.new specs) !! ref)
      as [v|] eqn:Hv; cbn.
    + destruct (is_nullish v) eqn:Hnull; [|done]. intros [= <-].
      split; [done|]. right.
      destruct (new_lookup_Some _ _ _ Hv)
        as (earlier & p & later & -> & Href & <- & Hlast).
      by exists earlier, p, later.
    + intros [= <-]. split; [done|]. left. by apply new_lookup_None.
  - intros [-> [Hnot|(earlier & p & later & -> & <- & Hnull & Hlast)]].
    + by apply get_unregistered, new_absent.
    + rewrite (get_registered _ _ _ (new_last earlier p later Hlast)).
      by rewrite Hnull.
Qed.

(** X3.  When a list of specs is followed by a second list, the second list
    decides every reference it names and the first list decides the
    others. *)
Theorem later_specs_override (specs1 specs2 : list PluginSpec) ref :
  PluginCollection.get (PluginCollection.new (specs1 ++ specs2)) ref =
    if decide (ref ∈ reference <$> specs2)
    then PluginCollection.get (PluginCollection.new specs2) ref
    else PluginCollection.get (PluginCollection.new specs1) ref.
Proof.
  unfold PluginCollection.get, Map_get. rewrite new_app.
  case_decide as Hin.
  - destruct (PluginCollection.plugins (PluginCollection.new specs2) !! ref)
      as [v|] eqn:Hv.
    + by rewrite (lookup_union_Some_l _ _ _ _ Hv).
    + by apply new_lookup_None in Hv.
  - apply new_lookup_None in Hin. by rewrite (lookup_union_r _ _ _ Hin).
Qed.

(** With pairwise distinct references, an entry of the registry is a spec of
    the list. *)
Lemma new_lookup_NoDup (specs : list PluginSpec) ref v :
  NoDup (reference <$> specs) →
  PluginCollection.plugins (PluginCollection.new specs) !! ref = Some v ↔
  mkPluginSpec ref v ∈ specs.
Proof.
  intros Hnodup. split.
  - intros (earlier & [r i] & later & -> & Hr & Hi & _)%new_lookup_Some.
    cbn in *. subst. set_solver.
  - intros (earlier & later & ->)%list_elem_of_split.
    rewrite fmap_app, fmap_cons in Hnodup.
    apply NoDup_app in Hnodup as (_ & _ & Hnodup).
    apply NoDup_cons in Hnodup as [Hlast _].
    by apply (new_last earlier (mkPluginSpec ref v) later).
Qed.

(** X4.  When the references of the specs are pairwise distinct, the order of
    the specs does not matter: every rearrangement of the list builds the
    same registry. *)
Theorem new_permutation (specs specs' : list PluginSpec) :
  NoDup (reference <$> specs) →
  specs ≡ₚ specs' →
  PluginCollection.new specs = PluginCollection.new specs'.
Proof.
  intros Hnodup Hperm.
  assert (NoDup (reference <$> specs')) as Hnodup' by by rewrite <-Hperm.
  assert (PluginCollection.plugins (PluginCollection.new specs) =
          PluginCollection.plugins (PluginCollection.new specs')) as Heq.
  { apply map_eq. intros ref. apply option_eq. intros v.
    rewrite !new_lookup_NoDup by done. by rewrite Hperm. }
  unfold PluginCollection.new in *. cbn in Heq. by rewrite Heq.
Qed.

(** Two specs with different references, in either order. *)
Lemma new_permutation_witness :
  PluginCollection.new [mkPluginSpec 3 (VObject 10); mkPluginSpec 4 VNull] =
  PluginCollection.new [mkPluginSpec 4 VNull; mkPluginSpec 3 (VObject 10)].
Proof.
  apply new_permutation.
  - cbn. apply NoDup_cons. split; [|apply NoDup_singleton].
    rewrite list_elem_of_singleton. discriminate.
  - apply Permutation_swap.
Defined.

(** With a repeated reference the order does matter. *)
Example new_order_matters :
  PluginCollection.get
    (PluginCollection.new
       [mkPluginSpec 3 (VObject 10); mkPluginSpec 3 (VObject 11)]) 3
  ≠ PluginCollection.get
      (PluginCollection.new
         [mkPluginSpec 3 (VObject 11); mkPluginSpec 3 (VObject 10)]) 3.
Proof. vm_compute. discriminate. Qed.

(** X5.  The registry holds one entry for each distinct reference of the
    list, however many specs name it. *)
Theorem new_size (specs : list PluginSpec) :
  size (PluginCollection.plugins (PluginCollection.new specs)) =
  length (remove_dups (reference <$> specs)).
Proof.
  rewrite <-(size_dom (D:=gset nat)).
  rewrite <-(size_list_to_set (C:=gset nat)) by apply NoDup_remove_dups.
  f_equal. apply set_eq. intros ref.
  rewrite elem_of_dom, elem_of_list_to_set, elem_of_remove_dups.
  rewrite <-not_eq_None_Some, new_lookup_None.
  split; [apply dec_stable|auto].
Qed.

(** ** The capability token: what passes the check *)

(** Strict equality of numbers holds only between numbers that are equal to
    themselves, that is, between numbers that are not NaN. *)
Lemma strict_equality_excludes_NaN (x y : float) :
  PrimFloat.eqb x y = true →
  PrimFloat.eqb x x = true ∧ PrimFloat.eqb y y = true.
Proof.
  rewrite !FloatAxioms.eqb_spec.
  assert (∀ s, s ≠ S754_nan → SFeqb s s = true) as Hrefl.
  { intros [s|s| |s m e] Hs; try done; unfold SFeqb, SFcompare.
    - by destruct s.
    - destruct s; by rewrite Z.compare_refl, Pos.compare_refl. }
  intros Heq. split; apply Hrefl; intros Hnan; rewrite Hnan in Heq.
  - done.
  - by destruct (Prim2SF x) as [[]|[]| |[] ? ?].
Qed.

(** X6.  NaN never passes the check: the assertion throws when the presented
    value is NaN, whatever the process token, and when the process token is
    NaN, whatever the presented value. *)
Theorem NaN_never_passes TOKEN tok :
  PrimFloat.eqb tok tok = false ∨ PrimFloat.eqb TOKEN TOKEN = false →
  assertConstructedByContextContainer TOKEN tok =
    Thrown (VError "Attempted to construct ContextModuleClass directly").
Proof.
  intros Hnan. unfold assertConstructedByContextContainer.
  destruct (PrimFloat.eqb tok TOKEN) eqn:Heq; [|done].
  apply strict_equality_excludes_NaN in Heq as [Htok HTOKEN].
  destruct Hnan; congruence.
Qed.

(** NaN presented against the token one half. *)
Lemma NaN_never_passes_witness :
  assertConstructedByContextContainer 0.5 nan =
    Thrown (VError "Attempted to construct ContextModuleClass directly").
Proof. apply NaN_never_passes. left. reflexivity. Defined.

(** X7.  Direct construction of a singleton class succeeds exactly when the
    presented value is strictly equal to the process token; it then returns
    the object that the constructor of [ContextualSingleton] allocates, with
    no further check. *)
Theorem direct_construction_succeeds_iff TOKEN singletonClass tok h i h' :
  construct_directly TOKEN singletonClass tok h = (Normal i, h') ↔
  PrimFloat.eqb tok TOKEN = true ∧
  new_ContextualSingleton singletonClass (mkProof tok) h = (i, h').
Proof.
  unfold construct_directly, new_ProofOfBeingCalledByContextContainer,
    assertConstructedByContextContainer. cbn.
  destruct (PrimFloat.eqb tok TOKEN); cbn; [|split; [done|by intros [? _]]].
  split; [by intros [= <- <-]|by intros [_ [= <- <-]]].
Qed.

(** ** The factory: failure and what a success leaves alone *)

(** X8.  The factory throws exactly when the process token is NaN; it then
    throws the construction error and leaves the store as it was. *)
Theorem create_throws_iff TOKEN plugins ts w e w' :
  ContextContainerFactoryImpl.create TOKEN plugins ts w = (Thrown e, w') ↔
  PrimFloat.eqb TOKEN TOKEN = false ∧
  e = VError "Attempted to construct ContextModuleClass directly" ∧
  w' = w.
Proof.
  unfold ContextContainerFactoryImpl.create,
    new_ProofOfBeingCalledByContextContainer,
    assertConstructedByContextContainer. cbn.
  destruct (PrimFloat.eqb TOKEN TOKEN); cbn; [split; [done|by intros [? _]]|].
  split; [by intros [= <- <-]|by intros (_ & -> & ->)].
Qed.

(** X9.  A successful call of the factory in a well-formed store returns an
    address at which no container was, keeps every container that was there
    as it was, and changes nothing of the heap but the allocator; the store
    stays well formed. *)
Theorem create_leaves_the_rest TOKEN plugins ts w cc w' :
  well_formed w →
  ContextContainerFactoryImpl.create TOKEN plugins ts w = (Normal cc, w') →
  containers w !! cc = None ∧
  is_Some (containers w' !! cc) ∧
  (∀ cc0 c, containers w !! cc0 = Some c → containers w' !! cc0 = Some c) ∧
  invocations w' = invocations w ∧
  now (heap w') = now (heap w) ∧
  instances (heap w') = instances (heap w) ∧
  promises (heap w') = promises (heap w) ∧
  well_formed w'.
Proof.
  intros Hwf Hcreate.
  pose proof (step_well_formed TOKEN _ _ Hwf
                (step_create TOKEN _ _ _ _ _ Hcreate)) as Hwf'.
  unfold ContextContainerFactoryImpl.create in Hcreate.
  destruct (new_ProofOfBeingCalledByContextContainer TOKEN TOKEN)
    as [pf|e]; [|done].
  cbn in Hcreate. injection Hcreate as <- <-. cbn.
  assert (containers w !! next_loc (heap w) = None) as Hnew.
  { destruct (containers w !! next_loc (heap w)) as [c|] eqn:Hc; [|done].
    apply (wf_containers _ Hwf) in Hc. lia. }
  split_and!; try done.
  - rewrite lookup_insert_eq. by eexists.
  - intros cc0 c Hc. rewrite lookup_insert_ne; [done|]. congruence.
Qed.

(** A second [create([])] after the first. *)
Lemma create_leaves_the_rest_witness :
  containers one_container !! 1 = None ∧
  is_Some (containers two_containers !! 1) ∧
  ∀ cc0 c, containers one_container !! cc0 = Some c →
           containers two_containers !! cc0 = Some c.
Proof.
  destruct (create_leaves_the_rest 0.5 [] None one_container 1 two_containers)
    as (Hnew & Hthere & Hkept & _).
  - apply well_formed_one_container.
  - reflexivity.
  - by split_and!.
Defined.

(** ** createPluginReference: references as keys *)

(** X10.  A reference made by [createPluginReference] is registered in no
    collection built from references that existed before it: [get] throws
    "Plugin not set" for it. *)
Theorem fresh_reference_unregistered (specs : list PluginSpec) h :
  (∀ p, p ∈ specs → reference p < next_loc h) →
  PluginCollection.get (PluginCollection.new specs)
    (createPluginReference h).1 = Thrown (VError "Plugin not set").
Proof.
  intros Hold. apply get_unregistered, new_absent. cbn.
  intros (p & Href & Hp)%list_elem_of_fmap. apply Hold in Hp. lia.
Qed.

(** The test "Fails to get plugin if not set", against a collection that
    holds an older reference. *)
Lemma fresh_reference_unregistered_witness :
  PluginCollection.get (PluginCollection.new [mkPluginSpec 0 (VObject 10)])
    (createPluginReference (mkHeap 1 0 ∅ ∅)).1
  = Thrown (VError "Plugin not set").
Proof.
  apply (fresh_reference_unregistered [mkPluginSpec 0 (VObject 10)]
           (mkHeap 1 0 ∅ ∅)).
  intros p ->%list_elem_of_singleton. cbn. lia.
Defined.

(** X11.  Two references made by separate calls of [createPluginReference]
    are different keys, whatever is allocated in between: an implementation
    registered under the first is returned for the first and is not found
    under the second. *)
Theorem independent_references_are_distinct_keys h h' impl :
  next_loc (createPluginReference h).2 ≤ next_loc h' →
  is_nullish impl = false →
  (createPluginReference h).1 ≠ (createPluginReference h').1 ∧
  PluginCollection.get
    (PluginCollection.new [mkPluginSpec (createPluginReference h).1 impl])
    (createPluginReference h).1 = Normal impl ∧
  PluginCollection.get
    (PluginCollection.new [mkPluginSpec (createPluginReference h).1 impl])
    (createPluginReference h').1 = Thrown (VError "Plugin not set").
Proof.
  cbn. intros Hle Hnull. split_and!.
  - lia.
  - unfold PluginCollection.get, Map_get. cbn.
    rewrite lookup_insert_eq. cbn. by rewrite Hnull.
  - unfold PluginCollection.get, Map_get. cbn.
    rewrite lookup_insert_ne by lia. by rewrite lookup_empty.
Qed.

(** Two references made one after the other. *)
Lemma independent_references_are_distinct_keys_witness :
  (createPluginReference fresh_heap).1
    ≠ (createPluginReference (createPluginReference fresh_heap).2).1 ∧
  PluginCollection.get
    (PluginCollection.new
       [mkPluginSpec (createPluginReference fresh_heap).1 (VObject 10)])
    (createPluginReference (createPluginReference fresh_heap).2).1
  = Thrown (VError "Plugin not set").
Proof.
  destruct (independent_references_are_distinct_keys fresh_heap
              (createPluginReference fresh_heap).2 (VObject 10))
    as (Hne & _ & Hthrows).
  - cbn. lia.
  - reflexivity.
  - by split.
Defined.

(** ** RequestStartTime: a field that is set once *)

Lemma setRequestTimes_once_set set timestamps :
  RequestStartTime.setRequestTimes timestamps
    (RequestStartTime.mk (Some set)) =
  ((λ _, Thrown (VError "Attempted to set request time twice"))
     <$> timestamps,
   RequestStartTime.mk (Some set)).
Proof.
  induction timestamps as [|timestamp rest IH]; [done|].
  cbn. cbn in IH. by rewrite IH.
Qed.

(** X12.  Of any number of calls of [setRequestTime] on a new instance only
    the first succeeds and every later one throws "Attempted to set request
    time twice"; afterwards the getter returns the first date, and it throws
    "Expected timestamp to be set" exactly when no call was made. *)
Theorem first_request_time_wins (timestamps : list Date) :
  (RequestStartTime.setRequestTimes timestamps RequestStartTime.fresh).1 =
    match timestamps with
    | [] => []
    | _ :: rest =>
        Normal tt ::
        ((λ _, Thrown (VError "Attempted to set request time twice")) <$> rest)
    end ∧
  RequestStartTime.timestamp
    (RequestStartTime.setRequestTimes timestamps RequestStartTime.fresh).2 =
    match timestamps with
    | [] => Thrown (VError "Expected timestamp to be set")
    | first :: _ => Normal first
    end.
Proof.
  destruct timestamps as [|first rest]; [done|].
  cbn. pose proof (setRequestTimes_once_set first rest) as Hrest.
  cbn in Hrest. by rewrite Hrest.
Qed.

(** ** ProofOfBeingCalledByContextContainer: what an instance proves *)

(** X13.  The constructor of the proof object returns exactly when the value
    it is given is strictly equal to the process token, and the object it
    returns holds that value: whoever holds a proof object holds a number
    equal to the token. *)
Theorem proof_object_holds_the_token TOKEN tok proof :
  new_ProofOfBeingCalledByContextContainer TOKEN tok = Normal proof ↔
  PrimFloat.eqb tok TOKEN = true ∧ proof = mkProof tok.
Proof.
  unfold new_ProofOfBeingCalledByContextContainer,
    assertConstructedByContextContainer. cbn.
  destruct (PrimFloat.eqb tok TOKEN); cbn.
  - split; [by intros [= <-]|by intros [_ ->]].
  - split; [done|by intros [? _]].
Qed.
